(** * Offline-first todo list: a shallow embedding of [src/app/page.tsx]

    The component [TodoApp] keeps a list of items in React state, mirrors
    every item into one IndexedDB object store keyed by the item's [id], and
    runs a reconciliation pass ([syncTodos]) from an effect that depends on
    the connectivity flag [isOnline].

    Modelling conventions.
    - A JavaScript string is the list of its UTF-16 code units ([list N]).
    - The object store ['todos'] (key path ['id']) is a finite map from ids
      to items.
    - [indexedDB.open] may fail; the three storage helpers catch the error
      and only log it.  The outcome of each open is an explicit boolean
      argument ([true]: the database opened).
    - [Date.now()] is read twice by [addTodo]; both readings are arguments.
    - Calls to [console.log] and [console.error] change no state and are
      left out.
    - An event handler runs to completion before the next event is handled.
      The reconciliation pass, whose body waits one second, is split into
      its start ([syncTodos_begin], which captures the list of the current
      render) and its completion ([syncTodos_complete]).  In the browser a
      handler that awaits the store can overlap with the next one and then
      sets the list from the render it was created in; the properties
      below that follow a list through several events are stated so that
      they do not depend on this: they speak of one handler, of the store,
      of what a pass captured, or of facts every handler keeps. *)

From Stdlib Require Import Ascii String.
From stdpp Require Import gmap list pretty sorting.

(** ** JavaScript strings *)

Abbreviation jsstring := (list N).

(** The code units of an ASCII literal. *)
Definition js (s : string) : jsstring :=
  N_of_ascii <$> list_ascii_of_string s.

(** [a === b] on strings compares contents. *)
Definition strictEq (a b : jsstring) : bool := bool_decide (a = b).

(** [!s] on a string: only the empty string is falsy. *)
Definition falsy (s : jsstring) : bool :=
  match s with [] => true | _ :: _ => false end.

(** ECMAScript [WhiteSpace] and [LineTerminator] code points, the ones
    [String.prototype.trim] strips. *)
Definition isWhiteSpace (c : N) : bool :=
  ((c =? 0x9) || (c =? 0xA) || (c =? 0xB) || (c =? 0xC) || (c =? 0xD)
   || (c =? 0x20) || (c =? 0xA0) || (c =? 0x1680)
   || ((0x2000 <=? c) && (c <=? 0x200A))
   || (c =? 0x2028) || (c =? 0x2029) || (c =? 0x202F) || (c =? 0x205F)
   || (c =? 0x3000) || (c =? 0xFEFF))%N.

Fixpoint trimStart (s : jsstring) : jsstring :=
  match s with
  | [] => []
  | c :: r => if isWhiteSpace c then trimStart r else s
  end.

Definition trimEnd (s : jsstring) : jsstring :=
  reverse (trimStart (reverse s)).

Definition trim (s : jsstring) : jsstring := trimEnd (trimStart s).

(** [Date.now().toString()]: the decimal numeral of an integer number of
    milliseconds. *)
Definition toString (n : Z) : jsstring := js (pretty n).

(** ** Data model *)

Record Todo := mkTodo {
  id : jsstring;
  text : jsstring;
  completed : bool;
  createdAt : Z;
  synced : bool
}.

#[global] Instance Todo_eq_dec : EqDecision Todo.
Proof. solve_decision. Defined.

(** The component's state variables, the object store, and what the React
    runtime and the pending timers hold on the component's behalf. *)
Record App := mkApp {
  todos : list Todo;                (* useState<Todo[]>([])  *)
  newTodo : jsstring;               (* useState('')          *)
  isOnline : bool;                  (* useState(true)        *)
  isSyncing : bool;                 (* useState(false)       *)
  db : gmap jsstring Todo;          (* object store 'todos'  *)
  pending : list (list Todo);       (* lists captured by the passes in flight *)
  effectDeps : option bool;         (* [isOnline] at the effect's last run *)
  syncCalls : nat                   (* number of calls of syncTodos so far *)
}.

Definition setTodos (l : list Todo) (st : App) : App :=
  mkApp l (newTodo st) (isOnline st) (isSyncing st) (db st) (pending st)
        (effectDeps st) (syncCalls st).

Definition setNewTodo (s : jsstring) (st : App) : App :=
  mkApp (todos st) s (isOnline st) (isSyncing st) (db st) (pending st)
        (effectDeps st) (syncCalls st).

Definition setIsOnline (b : bool) (st : App) : App :=
  mkApp (todos st) (newTodo st) b (isSyncing st) (db st) (pending st)
        (effectDeps st) (syncCalls st).

Definition setIsSyncing (b : bool) (st : App) : App :=
  mkApp (todos st) (newTodo st) (isOnline st) b (db st) (pending st)
        (effectDeps st) (syncCalls st).

Definition withDB (d : gmap jsstring Todo) (st : App) : App :=
  mkApp (todos st) (newTodo st) (isOnline st) (isSyncing st) d (pending st)
        (effectDeps st) (syncCalls st).

Definition withPending (p : list (list Todo)) (st : App) : App :=
  mkApp (todos st) (newTodo st) (isOnline st) (isSyncing st) (db st) p
        (effectDeps st) (syncCalls st).

(** ** Local store *)

(** [objectStore.put(todo)]: upsert under the key path. *)
Definition saveTodoDB (opened : bool) (todo : Todo)
    (d : gmap jsstring Todo) : gmap jsstring Todo :=
  if opened then <[id todo := todo]> d else d.

Definition deleteTodoDB (opened : bool) (i : jsstring)
    (d : gmap jsstring Todo) : gmap jsstring Todo :=
  if opened then delete i d else d.

(** The order of IndexedDB on string keys: code unit by code unit, a proper
    prefix first. *)
Fixpoint keyLeb (a b : jsstring) : bool :=
  match a, b with
  | [], _ => true
  | _ :: _, [] => false
  | x :: a', y :: b' =>
      if (x <? y)%N then true
      else if (x =? y)%N then keyLeb a' b' else false
  end.

Definition byKey (x y : jsstring * Todo) : Prop := keyLeb x.1 y.1 = true.

#[global] Instance byKey_dec : RelDecision byKey :=
  λ x y, decide (keyLeb x.1 y.1 = true).

(** [objectStore.getAll()]: every record, in ascending key order. *)
Definition getAll (d : gmap jsstring Todo) : list Todo :=
  (merge_sort byKey (map_to_list d)).*2.

Definition loadTodosFromDB (opened : bool) (st : App) : App :=
  if opened then setTodos (getAll (db st)) st else st.

(** ** Reconciler *)

Definition markSynced (todo : Todo) : Todo :=
  mkTodo (id todo) (text todo) (completed todo) (createdAt todo) true.

(** The loop [for (const todo of syncedTodos) await saveTodoDB(todo)];
    [opens k] is the outcome of the open made by the [k]-th save. *)
Fixpoint saveAll (opens : nat → bool) (k : nat) (l : list Todo)
    (d : gmap jsstring Todo) : gmap jsstring Todo :=
  match l with
  | [] => d
  | todo :: r => saveAll opens (S k) r (saveTodoDB (opens k) todo d)
  end.

(** Up to the [await] of the timer: the list of the current render is
    captured for the rest of the body. *)
Definition syncTodos_begin (st : App) : App :=
  mkApp (todos st) (newTodo st) (isOnline st) true (db st)
        (pending st ++ [todos st]) (effectDeps st) (S (syncCalls st)).

(** After the timer, for a pass that captured [snapshot]. *)
Definition syncTodos_complete (opens : nat → bool) (snapshot : list Todo)
    (st : App) : App :=
  let syncedTodos := markSynced <$> snapshot in
  setIsSyncing false
    (setTodos syncedTodos (withDB (saveAll opens 0 syncedTodos (db st)) st)).

(** The oldest pass in flight completes. *)
Definition syncTodos_finish (opens : nat → bool) (st : App) : App :=
  match pending st with
  | [] => st
  | snapshot :: rest => syncTodos_complete opens snapshot (withPending rest st)
  end.

(** The whole body of [syncTodos] with nothing happening during the wait:
    the pass completes over the list it captured when it began. *)
Definition syncTodos (opens : nat → bool) (st : App) : App :=
  syncTodos_complete opens (todos st)
    (withPending (pending st) (syncTodos_begin st)).

(** ** Item list controller *)

Definition addTodo (now_id now_created : Z) (opened : bool) (st : App) : App :=
  if falsy (trim (newTodo st)) then st
  else
    let todo := mkTodo (toString now_id) (trim (newTodo st)) false
                       now_created (isOnline st) in
    setNewTodo []
      (setTodos (todos st ++ [todo])
         (withDB (saveTodoDB opened todo (db st)) st)).

Definition toggled (online : bool) (todo : Todo) : Todo :=
  mkTodo (id todo) (text todo) (negb (completed todo)) (createdAt todo) online.

(** The arrow function mapped over the list by [toggleTodo]. *)
Definition toggleAt (i : jsstring) (online : bool) (todo : Todo) : Todo :=
  if strictEq (id todo) i then toggled online todo else todo.

Definition toggleTodo (i : jsstring) (opened : bool) (st : App) : App :=
  let updatedTodos := toggleAt i (isOnline st) <$> todos st in
  let st' := setTodos updatedTodos st in
  match List.find (λ t, strictEq (id t) i) updatedTodos with
  | Some todo => withDB (saveTodoDB opened todo (db st')) st'
  | None => st'
  end.

Definition deleteTodo (i : jsstring) (opened : bool) (st : App) : App :=
  setTodos (List.filter (λ todo, negb (strictEq (id todo) i)) (todos st))
    (withDB (deleteTodoDB opened i (db st)) st).

(** ** Rendering *)

Definition unsyncedCount (st : App) : nat :=
  length (List.filter (λ t, negb (synced t)) (todos st)).

(** The banner [{unsyncedCount > 0 && !isOnline && (...)}]: when rendered,
    the count it shows and the noun after it. *)
Definition pendingBanner (st : App) : option (nat * string) :=
  if (0 <? unsyncedCount st) && negb (isOnline st)
  then Some (unsyncedCount st,
             if (unsyncedCount st =? 1) then "item"%string else "items"%string)
  else None.

(** ** Effects and events *)

(** [useEffect(() => { if (isOnline) syncTodos(); }, [isOnline])], run by
    React after a render whose [isOnline] differs from the one of the
    effect's previous run (and after the first render). *)
Definition connectivityEffect (st : App) : App :=
  if bool_decide (effectDeps st = Some (isOnline st)) then st
  else
    let st' := mkApp (todos st) (newTodo st) (isOnline st) (isSyncing st)
                     (db st) (pending st) (Some (isOnline st)) (syncCalls st) in
    if isOnline st then syncTodos_begin st' else st'.

(** A page load: fresh component state over the store as it is, the first
    commit (no effect has run yet), then the render caused by
    [setIsOnline(navigator.onLine)] and its commit.  Timers of an earlier
    page are gone. *)
Definition mount (onLine : bool) (st : App) : App :=
  let first := mkApp [] [] true false (db st) [] None (syncCalls st) in
  connectivityEffect (setIsOnline onLine (connectivityEffect first)).

Inductive Event :=
  | EvMount (onLine : bool)               (* page (re)load *)
  | EvLoaded (opened : bool)              (* the read issued at mount returns *)
  | EvOnline                              (* window 'online' *)
  | EvOffline                             (* window 'offline' *)
  | EvInput (s : jsstring)                (* onChange of the text field *)
  | EvAdd (now_id now_created : Z) (opened : bool)
  | EvToggle (i : jsstring) (opened : bool)
  | EvDelete (i : jsstring) (opened : bool)
  | EvSyncDone (opens : nat → bool).      (* a pass in flight completes *)

Definition handle (ev : Event) (st : App) : App :=
  match ev with
  | EvMount onLine => mount onLine st
  | EvLoaded opened => loadTodosFromDB opened st
  | EvOnline => setIsOnline true st
  | EvOffline => setIsOnline false st
  | EvInput s => setNewTodo s st
  | EvAdd n1 n2 opened => addTodo n1 n2 opened st
  | EvToggle i opened => toggleTodo i opened st
  | EvDelete i opened => deleteTodo i opened st
  | EvSyncDone opens => syncTodos_finish opens st
  end.

(** A handler, then the commit of the render it caused. *)
Definition step (st : App) (ev : Event) : App :=
  connectivityEffect (handle ev st).

Definition run (st : App) (evs : list Event) : App := foldl step st evs.

(** A browser profile that never opened the page: empty store. *)
Definition fresh : App := mkApp [] [] true false ∅ [] None 0.

(** The page is loaded with [navigator.onLine = onLine], then [evs]
    happen. *)
Definition session (onLine : bool) (evs : list Event) : App :=
  run (mount onLine fresh) evs.

(** ** Vocabulary of the properties *)

(** A string made of whitespace only (the empty string included). *)
Definition blank (s : jsstring) : bool := forallb isWhiteSpace s.

(** A string that is not empty and neither starts nor ends with a
    whitespace code unit. *)
Definition trimmed (s : jsstring) : bool :=
  match head s, last s with
  | Some a, Some b => negb (isWhiteSpace a) && negb (isWhiteSpace b)
  | _, _ => false
  end.

(** The pending count in the specification's words: the number of items
    whose [synced] flag is false. *)
Fixpoint countUnsynced (l : list Todo) : nat :=
  match l with
  | [] => 0
  | t :: r => (if synced t then 0 else 1) + countUnsynced r
  end.

(** Every record of the store sits under its own [id] (key path ['id']). *)
Definition keyedById (d : gmap jsstring Todo) : Prop :=
  ∀ k t, d !! k = Some t → id t = k.

(** No item with id [i] is left, in the list or in the store. *)
Definition gone (i : jsstring) (st : App) : Prop :=
  (∀ t, t ∈ todos st → id t ≠ i) ∧ (∀ t, t ∈ getAll (db st) → id t ≠ i).

(** Every item of [snapshot] is in the list with [synced = true], and the
    store holds a record with [synced = true] under its id. *)
Definition reconciled (snapshot : list Todo) (st : App) : Prop :=
  (∀ t, t ∈ snapshot → markSynced t ∈ todos st)
  ∧ (∀ t, t ∈ snapshot → ∃ t', db st !! id t = Some t' ∧ synced t' = true).




(** A property of items holds of everything the application holds: the
    list, the store, and the lists captured by passes in flight. *)
Definition everywhere (P : Todo → Prop) (st : App) : Prop :=
  Forall P (todos st)
  ∧ map_Forall (λ _, P) (db st)
  ∧ Forall (Forall P) (pending st).

(** ** Sample states *)

(** Loaded offline; the pass started at mount has completed; "Buy milk"
    was typed with spaces around it and added at time 1000. *)
Definition offlineMilk : App :=
  session false
    [EvSyncDone (λ _, true); EvInput (js "  Buy milk "); EvAdd 1000 1001 true].

(** The same, with a second text typed into the field. *)
Definition typingBob : App := step offlineMilk (EvInput (js " Call Bob")).

(** The same, with only spaces and a tab typed into the field. *)
Definition typingSpaces : App :=
  step offlineMilk (EvInput [0x20; 0x9; 0x20]%N).

(** The item of [offlineMilk]. *)
Definition milk : Todo := mkTodo (js "1000") (js "Buy milk") false 1001 false.

(** Connectivity comes back after [offlineMilk]; the pass it starts
    completes while no open of the database succeeds. *)
Definition storeDownSync : App :=
  run offlineMilk [EvOnline; EvSyncDone (λ _, false)].

(** Connectivity comes back after [offlineMilk] and, during the wait of
    the pass it starts, "Call Bob" is added. *)
Definition addDuringSync : App :=
  run offlineMilk
    [EvOnline; EvInput (js "Call Bob"); EvAdd 2000 2001 true;
     EvSyncDone (λ _, true)].

(** Connectivity comes back after [offlineMilk]; during the wait of the
    pass it starts the item is deleted, the open succeeding; then the pass
    completes. *)
Definition deleteDuringSync : App :=
  run offlineMilk
    [EvOnline; EvDelete (js "1000") true; EvSyncDone (λ _, true)].

(** Two adds within the same millisecond. *)
Definition sameMillisecond : App :=
  session true
    [EvSyncDone (λ _, true);
     EvInput (js "a"); EvAdd 1000 1000 true;
     EvInput (js "b"); EvAdd 1000 1000 true].

(** ** Keyboard and the rest of the page *)

(** [handleKeyPress]: the key Enter in the text field adds. *)
Definition handleKeyPress (key : jsstring) (now_id now_created : Z)
    (opened : bool) (st : App) : App :=
  if strictEq key (js "Enter") then addTodo now_id now_created opened st
  else st.

(** [todos.filter(t => !t.completed).length] and
    [todos.filter(t => t.completed).length] of the footer. *)
Definition activeCount (st : App) : nat :=
  length (List.filter (λ t, negb (completed t)) (todos st)).

Definition completedCount (st : App) : nat :=
  length (List.filter (λ t, completed t) (todos st)).

(** [todos.length === 0 ? <p>No todos yet...</p> : todos.map(...)]: the
    message replaces the rows when the list is empty. *)
Definition emptyMessage (st : App) : bool := length (todos st) =? 0.

(** One row of the list: its React key, the text, whether the check mark
    and the line-through are drawn, whether the Pending badge is drawn. *)
Record ItemRow := mkItemRow {
  rowKey : jsstring;
  rowText : jsstring;
  rowChecked : bool;
  rowPending : bool
}.

Definition renderRow (todo : Todo) : ItemRow :=
  mkItemRow (id todo) (text todo) (completed todo) (negb (synced todo)).

Definition rows (st : App) : list ItemRow :=
  if emptyMessage st then [] else renderRow <$> todos st.

(** [{todos.length > 0 && (...)}]: when rendered, the two counts shown. *)
Definition footer (st : App) : option (nat * nat) :=
  if 0 <? length (todos st) then Some (activeCount st, completedCount st)
  else None.

(** ** Vocabulary of further properties *)

(** The event puts no record under key [i]: an add mints another id, a
    toggle is for another id, and a pass that completes captured no item
    with that id. *)
Definition sparesKeyAt (i : jsstring) (st : App) (ev : Event) : Prop :=
  match ev with
  | EvAdd now_id _ _ => toString now_id ≠ i
  | EvToggle j _ => j ≠ i
  | EvSyncDone _ =>
      match pending st with
      | [] => True
      | snapshot :: _ => ∀ t, t ∈ snapshot → id t ≠ i
      end
  | _ => True
  end.

Fixpoint sparing (i : jsstring) (st : App) (evs : list Event) : Prop :=
  match evs with
  | [] => True
  | ev :: r => sparesKeyAt i st ev ∧ sparing i (step st ev) r
  end.


(** Events that neither start a new page nor complete a pass. *)
Definition keepsPasses (ev : Event) : bool :=
  match ev with
  | EvMount _ | EvSyncDone _ => false
  | _ => true
  end.

(** The clock readings that adds turn into ids. *)
Fixpoint clockReads (evs : list Event) : list Z :=
  match evs with
  | [] => []
  | EvAdd now_id _ _ :: r => now_id :: clockReads r
  | _ :: r => clockReads r
  end.

(** What the platform reported last: [navigator.onLine] at the latest
    page load or the latest [online] / [offline] event. *)
Fixpoint lastReport (b : bool) (evs : list Event) : bool :=
  match evs with
  | [] => b
  | EvMount onLine :: r => lastReport onLine r
  | EvOnline :: r => lastReport true r
  | EvOffline :: r => lastReport false r
  | _ :: r => lastReport b r
  end.

(** The id is the numeral of one of the clock readings [U]. *)
Definition idIn (U : list Z) (t : Todo) : Prop := id t ∈ toString <$> U.

(** No id occurs twice in the list, nor in a list captured by a pass in
    flight. *)
Definition distinct (st : App) : Prop :=
  NoDup (id <$> todos st) ∧ Forall (λ s, NoDup (id <$> s)) (pending st).


(** The events that lead to [offlineMilk]. *)
Definition milkEvents : list Event :=
  [EvSyncDone (λ _, true); EvInput (js "  Buy milk "); EvAdd 1000 1001 true].

(** * Properties *)

(** ** [trim] *)

Section Trim.

Lemma trimStart_split s :
  ∃ pre, s = pre ++ trimStart s ∧ blank pre = true.
Proof.
  induction s as [|c r [pre [Hr Hpre]]]; [by exists []|].
  simpl. destruct (isWhiteSpace c) eqn:Hc.
  - exists (c :: pre). split; [by rewrite <- app_comm_cons, <- Hr|].
    simpl. by rewrite Hc.
  - by exists [].
Qed.

Lemma trimStart_nil s : trimStart s = [] ↔ blank s = true.
Proof.
  induction s as [|c r IH]; simpl; [done|].
  destruct (isWhiteSpace c); simpl; [done|]. split; discriminate.
Qed.

Lemma trimStart_head s c :
  head (trimStart s) = Some c → isWhiteSpace c = false.
Proof.
  induction s as [|a r IH]; simpl; [done|].
  destruct (isWhiteSpace a) eqn:Ha; [done|].
  simpl. by intros [= <-].
Qed.

Lemma trimStart_snoc l c :
  isWhiteSpace c = false → trimStart (l ++ [c]) = trimStart l ++ [c].
Proof.
  intros Hc. induction l as [|a r IH]; simpl; [by rewrite Hc|].
  by destruct (isWhiteSpace a).
Qed.

Lemma trimEnd_cons c r :
  isWhiteSpace c = false → trimEnd (c :: r) = c :: trimEnd r.
Proof.
  intros Hc. unfold trimEnd.
  by rewrite reverse_cons, trimStart_snoc, reverse_snoc.
Qed.

Lemma trimEnd_split s :
  ∃ post, s = trimEnd s ++ post ∧ blank post = true.
Proof.
  destruct (trimStart_split (reverse s)) as [pre [Hs Hpre]].
  exists (reverse pre). split.
  - unfold trimEnd. rewrite <- reverse_app, <- Hs.
    by rewrite reverse_involutive.
  - unfold blank in *. rewrite forallb_forall in *.
    intros c Hc. apply Hpre. apply list_elem_of_In.
    apply list_elem_of_In in Hc. by rewrite elem_of_reverse in Hc.
Qed.

Lemma trimEnd_last s c :
  last (trimEnd s) = Some c → isWhiteSpace c = false.
Proof. unfold trimEnd. rewrite last_reverse. apply trimStart_head. Qed.

Lemma trim_nil s : trim s = [] ↔ blank s = true.
Proof.
  rewrite <- trimStart_nil. unfold trim.
  destruct (trimStart s) as [|c r] eqn:Hs; [done|].
  rewrite trimEnd_cons; [done|].
  apply (trimStart_head s). by rewrite Hs.
Qed.

Lemma falsy_trim s : falsy (trim s) = blank s.
Proof.
  destruct (blank s) eqn:Hb.
  - apply trim_nil in Hb. by rewrite Hb.
  - destruct (trim s) eqn:Ht; [|done].
    apply trim_nil in Ht. congruence.
Qed.

(** [trim s] is [s] without a blank prefix and a blank suffix. *)
Lemma trim_split s :
  ∃ pre post, s = pre ++ trim s ++ post
              ∧ blank pre = true ∧ blank post = true.
Proof.
  destruct (trimStart_split s) as [pre [Hs Hpre]].
  destruct (trimEnd_split (trimStart s)) as [post [Ht Hpost]].
  exists pre, post. unfold trim. by rewrite <- Ht.
Qed.

Lemma trim_trimmed s : blank s = false → trimmed (trim s) = true.
Proof.
  intros Hb. unfold trimmed.
  destruct (head (trim s)) as [a|] eqn:Ha.
  - destruct (last (trim s)) as [b|] eqn:Hl.
    + apply trimEnd_last in Hl. rewrite Hl.
      unfold trim in Ha.
      destruct (trimStart s) as [|c r] eqn:Hs; [done|].
      assert (isWhiteSpace c = false) as Hc
        by (apply (trimStart_head s); by rewrite Hs).
      rewrite trimEnd_cons in Ha by done.
      injection Ha as <-. by rewrite Hc.
    + apply last_None in Hl. by rewrite Hl in Ha.
  - apply head_None in Ha. apply trim_nil in Ha. congruence.
Qed.

End Trim.

(** ** The controller's operations, field by field *)

Section Controller.

Implicit Types (st : App) (i : jsstring) (l : list Todo).

Lemma strictEq_true (a b : jsstring) : strictEq a b = true ↔ a = b.
Proof. unfold strictEq. apply bool_decide_eq_true. Qed.

Lemma strictEq_false (a b : jsstring) : strictEq a b = false ↔ a ≠ b.
Proof. unfold strictEq. apply bool_decide_eq_false. Qed.

Lemma id_toggleAt i online todo : id (toggleAt i online todo) = id todo.
Proof. unfold toggleAt. by destruct (strictEq _ _). Qed.

Lemma toggleAt_hit i online todo :
  id todo = i → toggleAt i online todo = toggled online todo.
Proof.
  intros Hi. unfold toggleAt.
  by rewrite (proj2 (strictEq_true _ _) Hi).
Qed.

Lemma toggleAt_miss i online todo :
  id todo ≠ i → toggleAt i online todo = todo.
Proof.
  intros Hi. unfold toggleAt.
  by rewrite (proj2 (strictEq_false _ _) Hi).
Qed.

(** [find] sees the same ids before and after the map. *)
Lemma find_toggleAt i online l :
  List.find (λ t, strictEq (id t) i) (toggleAt i online <$> l)
  = toggleAt i online <$> List.find (λ t, strictEq (id t) i) l.
Proof.
  induction l as [|t r IH]; simpl; [done|].
  rewrite id_toggleAt. by destruct (strictEq (id t) i).
Qed.

Lemma find_some_id i l t :
  List.find (λ t, strictEq (id t) i) l = Some t → id t = i ∧ t ∈ l.
Proof.
  intros H. apply find_some in H as [Hin Heq].
  split; [by apply strictEq_true|by apply list_elem_of_In].
Qed.

Lemma find_none_id i l :
  List.find (λ t, strictEq (id t) i) l = None ↔ ∀ t, t ∈ l → id t ≠ i.
Proof.
  induction l as [|a r IH]; simpl.
  - split; [intros _ t Ht; by apply elem_of_nil in Ht|done].
  - destruct (strictEq (id a) i) eqn:Ha.
    + split; [done|]. intros H. apply strictEq_true in Ha.
      destruct (H a); [left|done].
    + rewrite IH. apply strictEq_false in Ha. split.
      * intros H t [->|Ht]%elem_of_cons; auto.
      * intros H t Ht. apply H. by right.
Qed.

Lemma todos_toggleTodo i opened st :
  todos (toggleTodo i opened st) = toggleAt i (isOnline st) <$> todos st.
Proof. unfold toggleTodo. by destruct (List.find _ _). Qed.

Lemma db_toggleTodo i opened st :
  db (toggleTodo i opened st)
  = match List.find (λ t, strictEq (id t) i) (todos st) with
    | Some todo => saveTodoDB opened (toggled (isOnline st) todo) (db st)
    | None => db st
    end.
Proof.
  unfold toggleTodo. rewrite find_toggleAt.
  destruct (List.find _ (todos st)) as [t|] eqn:Hf; simpl; [|done].
  apply find_some_id in Hf as [Hi _]. by rewrite toggleAt_hit.
Qed.

Lemma setTodos_same st : setTodos (todos st) st = st.
Proof. by destruct st. Qed.

Lemma addTodo_blank n1 n2 opened st :
  blank (newTodo st) = true → addTodo n1 n2 opened st = st.
Proof. intros Hb. unfold addTodo. by rewrite falsy_trim, Hb. Qed.

Lemma addTodo_accepted n1 n2 opened st :
  blank (newTodo st) = false →
  addTodo n1 n2 opened st
  = let todo := mkTodo (toString n1) (trim (newTodo st)) false n2
                       (isOnline st) in
    mkApp (todos st ++ [todo]) [] (isOnline st) (isSyncing st)
          (saveTodoDB opened todo (db st)) (pending st) (effectDeps st)
          (syncCalls st).
Proof. intros Hb. unfold addTodo. by rewrite falsy_trim, Hb. Qed.

End Controller.

(** ** Claims about single operations *)

(** C1: every local mutation of an item (add, toggle) leaves that item with
    [synced] equal to the connectivity flag at the time of the mutation, in
    the list and in the record put into the store; an add made offline
    yields [synced = false] and the same add made online yields
    [synced = true]. *)
Theorem local_mutation_synced_is_connectivity (st : App) :
  (∀ n1 n2 opened,
      blank (newTodo st) = false →
      ∃ todo, todos (addTodo n1 n2 opened st) = todos st ++ [todo]
              ∧ synced todo = isOnline st
              ∧ db (addTodo n1 n2 true st) !! id todo = Some todo)
  ∧ (∀ i opened k todo,
      todos st !! k = Some todo → id todo = i →
      ∃ todo', todos (toggleTodo i opened st) !! k = Some todo'
               ∧ id todo' = i
               ∧ completed todo' = negb (completed todo)
               ∧ synced todo' = isOnline st
               ∧ ∃ kept, db (toggleTodo i true st) !! i = Some kept
                         ∧ synced kept = isOnline st)
  ∧ (∀ n1 n2 opened,
      blank (newTodo st) = false →
      ∃ offline online,
        todos (addTodo n1 n2 opened (setIsOnline false st))
          = todos st ++ [offline]
        ∧ todos (addTodo n1 n2 opened (setIsOnline true st))
          = todos st ++ [online]
        ∧ synced offline = false ∧ synced online = true
        ∧ markSynced offline = online).
Proof.
  split; [|split].
  - intros n1 n2 opened Hb. rewrite !addTodo_accepted by done. simpl.
    eexists. split; [done|]. split; [done|]. simpl. apply lookup_insert_eq.
  - intros i opened k todo Hk Hi.
    exists (toggled (isOnline st) todo).
    rewrite todos_toggleTodo, list_lookup_fmap, Hk. simpl.
    rewrite toggleAt_hit by done. repeat (split; [done|]).
    rewrite db_toggleTodo.
    destruct (List.find _ (todos st)) as [t|] eqn:Hf.
    + apply find_some_id in Hf as [Ht _].
      exists (toggled (isOnline st) t). split; [|done].
      simpl. rewrite <- Ht at 1. apply lookup_insert_eq.
    + exfalso. eapply find_none_id; [exact Hf| |exact Hi].
      eapply list_elem_of_lookup_2, Hk.
  - intros n1 n2 opened Hb.
    rewrite !addTodo_accepted by done. simpl.
    do 2 eexists. repeat (split; [reflexivity|]). reflexivity.
Qed.

Lemma local_mutation_synced_is_connectivity_witness :
  (∃ todo, todos (addTodo 2000 2001 true typingBob)
             = todos typingBob ++ [todo]
           ∧ synced todo = isOnline typingBob
           ∧ db (addTodo 2000 2001 true typingBob) !! id todo = Some todo)
  ∧ (∃ todo', todos (toggleTodo (js "1000") true offlineMilk) !! 0
                = Some todo'
              ∧ id todo' = js "1000"
              ∧ completed todo' = negb false
              ∧ synced todo' = isOnline offlineMilk
              ∧ ∃ kept, db (toggleTodo (js "1000") true offlineMilk)
                          !! js "1000" = Some kept
                        ∧ synced kept = isOnline offlineMilk)
  ∧ (∃ offline online,
        todos (addTodo 2000 2001 true (setIsOnline false typingBob))
          = todos typingBob ++ [offline]
        ∧ todos (addTodo 2000 2001 true (setIsOnline true typingBob))
          = todos typingBob ++ [online]
        ∧ synced offline = false ∧ synced online = true
        ∧ markSynced offline = online).
Proof.
  split; [|split].
  - apply (proj1 (local_mutation_synced_is_connectivity typingBob)).
    reflexivity.
  - apply (proj1 (proj2 (local_mutation_synced_is_connectivity offlineMilk))
             (js "1000") true 0
             (mkTodo (js "1000") (js "Buy milk") false 1001 false));
      reflexivity.
  - apply (proj2 (proj2 (local_mutation_synced_is_connectivity typingBob))).
    reflexivity.
Defined.

(** C4: toggling the same id twice in succession restores every item's
    [completed] field. *)
Theorem toggle_twice_completed (st : App) (i : jsstring) (o1 o2 : bool) :
  completed <$> todos (toggleTodo i o2 (toggleTodo i o1 st))
  = completed <$> todos st.
Proof.
  rewrite !todos_toggleTodo, <- !list_fmap_compose.
  apply list_fmap_ext. intros _ t _. simpl.
  unfold toggleAt at 2. destruct (strictEq (id t) i) eqn:Ht.
  - apply strictEq_true in Ht. rewrite toggleAt_hit by done.
    simpl. apply negb_involutive.
  - apply strictEq_false in Ht. by rewrite toggleAt_miss.
Qed.

(** C10: toggling an id carried by no item of the list changes nothing:
    the list, the store and every other part of the state stay as they
    were. *)
Theorem toggle_unknown_id_noop (st : App) (i : jsstring) (opened : bool) :
  (∀ t, t ∈ todos st → id t ≠ i) → toggleTodo i opened st = st.
Proof.
  intros Hno.
  assert (toggleAt i (isOnline st) <$> todos st = todos st) as Hmap.
  { rewrite <- (list_fmap_id (todos st)) at 2.
    apply list_fmap_ext. intros k t Hk. apply toggleAt_miss, Hno.
    eapply list_elem_of_lookup_2, Hk. }
  unfold toggleTodo. rewrite Hmap.
  rewrite (proj2 (find_none_id i (todos st)) Hno).
  apply setTodos_same.
Qed.

Lemma toggle_unknown_id_noop_witness :
  toggleTodo (js "999") true offlineMilk = offlineMilk.
Proof.
  apply (toggle_unknown_id_noop offlineMilk (js "999") true).
  intros t Ht. vm_compute in Ht.
  apply list_elem_of_singleton in Ht. subst t. vm_compute. discriminate.
Defined.

(** ** Rendering *)

Lemma length_filter_unsynced (l : list Todo) :
  length (List.filter (λ t, negb (synced t)) l) = countUnsynced l.
Proof.
  induction l as [|t r IH]; simpl; [done|].
  destruct (synced t); simpl; by rewrite IH.
Qed.

(** C5: the pending count the component computes is the number of items
    with [synced = false]; the banner is rendered exactly when the
    connectivity flag is off and that number is positive, and the number
    it shows is that count. *)
Theorem pending_count_and_banner (st : App) :
  unsyncedCount st = countUnsynced (todos st)
  ∧ (is_Some (pendingBanner st)
     ↔ isOnline st = false ∧ 0 < countUnsynced (todos st))
  ∧ (∀ n noun, pendingBanner st = Some (n, noun) →
               n = countUnsynced (todos st)).
Proof.
  assert (unsyncedCount st = countUnsynced (todos st)) as Hc
    by apply length_filter_unsynced.
  split; [done|]. unfold pendingBanner. rewrite Hc.
  destruct (Nat.ltb_spec 0 (countUnsynced (todos st))) as [Hpos|Hzero];
    destruct (isOnline st); simpl; split.
  - split; [by intros [? ?]|by intros [? _]].
  - done.
  - split; [done|]. intros _. by eexists.
  - by intros n noun [= <- _].
  - split; [by intros [? ?]|by intros [? _]].
  - done.
  - split; [by intros [? ?]|]. intros [_ ?]. lia.
  - done.
Qed.

Lemma pending_count_and_banner_witness :
  unsyncedCount offlineMilk = countUnsynced (todos offlineMilk)
  ∧ (is_Some (pendingBanner offlineMilk)
     ↔ isOnline offlineMilk = false ∧ 0 < countUnsynced (todos offlineMilk))
  ∧ 1 = countUnsynced (todos offlineMilk).
Proof.
  destruct (pending_count_and_banner offlineMilk) as (H1 & H2 & H3).
  split; [exact H1|]. split; [exact H2|].
  apply (H3 1 "item"%string). reflexivity.
Defined.

(** ** Validation on add *)

(** C6: an input that is empty or made of whitespace only is rejected by
    add and the state, store included, stays as it was; every other input
    is accepted: one item is appended to the list, it is put into the
    store, and the input field is cleared. *)
Theorem add_rejects_exactly_blank_input
    (st : App) (n1 n2 : Z) (opened : bool) :
  (blank (newTodo st) = true → addTodo n1 n2 opened st = st)
  ∧ (blank (newTodo st) = false →
     ∃ todo,
       addTodo n1 n2 opened st
       = mkApp (todos st ++ [todo]) [] (isOnline st) (isSyncing st)
               (saveTodoDB opened todo (db st)) (pending st)
               (effectDeps st) (syncCalls st)
       ∧ todo = mkTodo (toString n1) (trim (newTodo st)) false n2
                       (isOnline st)
       ∧ length (todos (addTodo n1 n2 opened st)) = S (length (todos st))).
Proof.
  split.
  - apply addTodo_blank.
  - intros Hb. rewrite addTodo_accepted by done. simpl.
    eexists. split; [reflexivity|]. split; [reflexivity|].
    rewrite length_app. simpl. lia.
Qed.

Lemma add_rejects_exactly_blank_input_witness :
  addTodo 2000 2001 true typingSpaces = typingSpaces
  ∧ ∃ todo,
      addTodo 2000 2001 true typingBob
      = mkApp (todos typingBob ++ [todo]) [] (isOnline typingBob)
              (isSyncing typingBob) (saveTodoDB true todo (db typingBob))
              (pending typingBob) (effectDeps typingBob)
              (syncCalls typingBob)
      ∧ todo = mkTodo (toString 2000) (trim (newTodo typingBob)) false 2001
                      (isOnline typingBob)
      ∧ length (todos (addTodo 2000 2001 true typingBob))
        = S (length (todos typingBob)).
Proof.
  split.
  - apply (proj1 (add_rejects_exactly_blank_input typingSpaces 2000 2001 true)).
    reflexivity.
  - apply (proj2 (add_rejects_exactly_blank_input typingBob 2000 2001 true)).
    reflexivity.
Defined.

(** ** The local store *)

Section Store.

Implicit Types (d : gmap jsstring Todo) (i : jsstring) (t : Todo).

Lemma elem_of_getAll d t : t ∈ getAll d ↔ ∃ k, d !! k = Some t.
Proof.
  unfold getAll. rewrite list_elem_of_fmap. split.
  - intros [[k t'] [-> Hin]]. exists k.
    rewrite merge_sort_Permutation in Hin. by apply elem_of_map_to_list.
  - intros [k Hk]. exists (k, t). split; [done|].
    rewrite merge_sort_Permutation. by apply elem_of_map_to_list.
Qed.

Lemma keyedById_empty : keyedById ∅.
Proof. intros k t Hk. by rewrite lookup_empty in Hk. Qed.

Lemma keyedById_save opened t d :
  keyedById d → keyedById (saveTodoDB opened t d).
Proof.
  intros Hd k t'. destruct opened; simpl; [|apply Hd].
  rewrite lookup_insert. case_decide; [|apply Hd].
  intros [= <-]. done.
Qed.

Lemma keyedById_delete opened i d :
  keyedById d → keyedById (deleteTodoDB opened i d).
Proof.
  intros Hd k t'. destruct opened; simpl; [|apply Hd].
  rewrite lookup_delete. case_decide; [done|apply Hd].
Qed.

Lemma keyedById_saveAll opens k l d :
  keyedById d → keyedById (saveAll opens k l d).
Proof.
  revert k d. induction l as [|t r IH]; intros k d Hd; simpl; [done|].
  by apply IH, keyedById_save.
Qed.

(** Under the key path, [getAll] returns each id once. *)
Lemma getAll_ids d :
  keyedById d → id <$> getAll d = (merge_sort byKey (map_to_list d)).*1.
Proof.
  intros Hd. unfold getAll. rewrite <- list_fmap_compose.
  apply list_fmap_ext. intros n [k t] Hn. simpl.
  apply (Hd k t), elem_of_map_to_list.
  rewrite <- (merge_sort_Permutation byKey).
  eapply list_elem_of_lookup_2, Hn.
Qed.

Lemma getAll_NoDup_ids d : keyedById d → NoDup (id <$> getAll d).
Proof.
  intros Hd. rewrite getAll_ids by done.
  rewrite merge_sort_Permutation. apply NoDup_fst_map_to_list.
Qed.

(** What the loop of the reconciler leaves under a key: the old record,
    or one of the records it was given. *)
Lemma saveAll_lookup opens k l d i :
  saveAll opens k l d !! i = d !! i
  ∨ ∃ t, t ∈ l ∧ id t = i ∧ saveAll opens k l d !! i = Some t.
Proof.
  revert k d. induction l as [|a r IH]; intros k d; simpl; [by left|].
  destruct (IH (S k) (saveTodoDB (opens k) a d)) as [Heq|(t & Ht & Hi & Hl)].
  - rewrite Heq. destruct (opens k); simpl; [|by left].
    rewrite lookup_insert. case_decide as Hk; [|by left].
    right. exists a. split; [left|]. by split.
  - right. exists t. split; [by right|done].
Qed.

(** When every open of the loop succeeds, each record given to it has a
    record of the loop under its id. *)
Lemma saveAll_stored opens k l d t :
  (∀ j, k ≤ j < k + length l → opens j = true) →
  t ∈ l →
  ∃ t', t' ∈ l ∧ id t' = id t ∧ saveAll opens k l d !! id t = Some t'.
Proof.
  revert k d. induction l as [|a r IH]; intros k d Hopen Ht.
  - by apply elem_of_nil in Ht.
  - simpl. apply elem_of_cons in Ht as [->|Ht].
    + destruct (saveAll_lookup opens (S k) r
                  (saveTodoDB (opens k) a d) (id a))
        as [Heq|(t' & Ht' & Hi & Hl)].
      * exists a. split; [left|]. split; [done|].
        rewrite Heq, (Hopen k) by (simpl; lia). simpl.
        apply lookup_insert_eq.
      * exists t'. split; [by right|done].
    + destruct (IH (S k) (saveTodoDB (opens k) a d)) as (t' & Ht' & Hi & Hl);
        [intros j Hj; apply Hopen; simpl; lia|done|].
      exists t'. split; [by right|done].
Qed.

Lemma map_Forall_save (P : Todo → Prop) opened t d :
  P t → map_Forall (λ _, P) d → map_Forall (λ _, P) (saveTodoDB opened t d).
Proof.
  intros Ht Hd. destruct opened; simpl; [|done]. by apply map_Forall_insert_2.
Qed.

Lemma map_Forall_deleteDB (P : Todo → Prop) opened i d :
  map_Forall (λ _, P) d → map_Forall (λ _, P) (deleteTodoDB opened i d).
Proof.
  intros Hd. destruct opened; simpl; [|done]. by apply map_Forall_delete.
Qed.

Lemma map_Forall_saveAll (P : Todo → Prop) opens k l d :
  Forall P l → map_Forall (λ _, P) d →
  map_Forall (λ _, P) (saveAll opens k l d).
Proof.
  revert k d. induction l as [|a r IH]; intros k d Hl Hd; simpl; [done|].
  inversion Hl; subst. by apply IH, map_Forall_save.
Qed.

Lemma Forall_getAll (P : Todo → Prop) d :
  map_Forall (λ _, P) d → Forall P (getAll d).
Proof.
  intros Hd. apply Forall_forall. intros t [k Hk]%elem_of_getAll.
  by apply (Hd k).
Qed.

End Store.

(** ** The effect and the event loop *)

Section Effect.

Implicit Types (st : App) (ev : Event).

Lemma connectivityEffect_frame st :
  todos (connectivityEffect st) = todos st
  ∧ newTodo (connectivityEffect st) = newTodo st
  ∧ isOnline (connectivityEffect st) = isOnline st
  ∧ db (connectivityEffect st) = db st.
Proof.
  unfold connectivityEffect.
  by destruct (bool_decide _), (isOnline st).
Qed.


Lemma pending_connectivityEffect st :
  pending (connectivityEffect st) = pending st
  ∨ pending (connectivityEffect st) = pending st ++ [todos st].
Proof.
  unfold connectivityEffect. case_bool_decide; [by left|].
  destruct (isOnline st); [by right|by left].
Qed.


(** A page load, whatever [navigator.onLine] says, starts one pass over
    the empty list of the first render. *)
Lemma mount_eq onLine st :
  mount onLine st
  = mkApp [] [] onLine true (db st) [[]] (Some onLine) (S (syncCalls st)).
Proof. by destruct onLine. Qed.

Lemma db_mount onLine st : db (mount onLine st) = db st.
Proof. by rewrite mount_eq. Qed.

(** Handlers other than the connectivity listeners leave the flag, the
    effect's dependencies and the call count alone. *)
Lemma handle_frame ev st :
  match ev with
  | EvMount _ | EvOnline | EvOffline => True
  | _ => isOnline (handle ev st) = isOnline st
         ∧ effectDeps (handle ev st) = effectDeps st
         ∧ syncCalls (handle ev st) = syncCalls st
  end.
Proof.
  destruct ev as [b|o| | |s|n1 n2 o|i o|i o|opens]; simpl; try done.
  - by destruct o.
  - unfold addTodo. by destruct (falsy _).
  - unfold toggleTodo. by destruct (List.find _ _).
  - unfold syncTodos_finish. by destruct (pending st).
Qed.

End Effect.

(** ** Invariants of the event loop *)

Section KeyPath.

Implicit Types (st : App) (ev : Event).

Lemma keyedById_handle ev st :
  keyedById (db st) → keyedById (db (handle ev st)).
Proof.
  intros Hd.
  destruct ev as [b|o| | |s|n1 n2 o|i o|i o|opens]; simpl; try done.
  - by rewrite db_mount.
  - by destruct o.
  - unfold addTodo. destruct (falsy _); [done|]. simpl.
    by apply keyedById_save.
  - rewrite db_toggleTodo. destruct (List.find _ _); [|done].
    by apply keyedById_save.
  - by apply keyedById_delete.
  - unfold syncTodos_finish. destruct (pending st); [done|]. simpl.
    by apply keyedById_saveAll.
Qed.

Lemma keyedById_step ev st :
  keyedById (db st) → keyedById (db (step st ev)).
Proof.
  intros Hd. unfold step.
  rewrite (proj2 (proj2 (proj2 (connectivityEffect_frame _)))).
  by apply keyedById_handle.
Qed.

Lemma keyedById_run evs st :
  keyedById (db st) → keyedById (db (run st evs)).
Proof.
  revert st. induction evs as [|ev r IH]; intros st Hd; simpl; [done|].
  by apply IH, keyedById_step.
Qed.

Lemma keyedById_session onLine evs : keyedById (db (session onLine evs)).
Proof.
  apply keyedById_run. rewrite db_mount. apply keyedById_empty.
Qed.

End KeyPath.

Section Everywhere.

Variable P : Todo → Prop.
Hypothesis P_markSynced : ∀ t, P t → P (markSynced t).
Hypothesis P_toggled : ∀ b t, P t → P (toggled b t).
Hypothesis P_new :
  ∀ n1 n2 s b, blank s = false → P (mkTodo (toString n1) (trim s) false n2 b).

Implicit Types (st : App) (ev : Event).

Lemma everywhere_connectivityEffect st :
  everywhere P st → everywhere P (connectivityEffect st).
Proof.
  intros (Hl & Hd & Hp). unfold everywhere.
  destruct (connectivityEffect_frame st) as (-> & _ & _ & ->).
  split; [done|]. split; [done|].
  destruct (pending_connectivityEffect st) as [-> | ->]; [done|].
  apply Forall_app. split; [done|]. by apply Forall_singleton.
Qed.

Lemma everywhere_mount onLine st :
  everywhere P st → everywhere P (mount onLine st).
Proof.
  intros (_ & Hd & _). rewrite mount_eq. split; [constructor|].
  split; [done|]. simpl. by repeat constructor.
Qed.

Lemma everywhere_handle ev st :
  everywhere P st → everywhere P (handle ev st).
Proof.
  intros Hst. pose proof Hst as (Hl & Hd & Hp).
  destruct ev as [b|o| | |s|n1 n2 o|i o|i o|opens]; simpl; try done.
  - by apply everywhere_mount.
  - destruct o; [|done]. split; [|done]. by apply Forall_getAll.
  - unfold addTodo. rewrite falsy_trim.
    destruct (blank (newTodo st)) eqn:Hb; [done|].
    split; [|split]; simpl; [| |done].
    + apply Forall_app. split; [done|]. apply Forall_singleton. by apply P_new.
    + apply map_Forall_save; [by apply P_new|done].
  - assert (∀ t, P t → P (toggleAt i (isOnline st) t)) as Ht.
    { intros t Pt. unfold toggleAt. destruct (strictEq _ _); [|done].
      by apply P_toggled. }
    split; [|split].
    + rewrite todos_toggleTodo. by apply Forall_fmap, (Forall_impl _ _ _ Hl).
    + rewrite db_toggleTodo.
      destruct (List.find _ _) as [t|] eqn:Hf; [|done].
      apply map_Forall_save; [|done]. apply P_toggled.
      apply find_some_id in Hf as [_ Hin].
      by apply (proj1 (Forall_forall _ _) Hl).
    + unfold toggleTodo. by destruct (List.find _ _).
  - split; [|split]; simpl; [| |done].
    + apply Forall_forall. intros t Ht.
      apply list_elem_of_In, filter_In in Ht as [Ht _].
      apply list_elem_of_In in Ht.
      by apply (proj1 (Forall_forall _ _) Hl).
    + by apply map_Forall_deleteDB.
  - unfold syncTodos_finish.
    destruct (pending st) as [|snap rest] eqn:Hpend; [done|].
    inversion Hp as [|? ? Hsnap Hrest]; subst.
    assert (Forall P (markSynced <$> snap)) as Hsynced.
    { apply Forall_fmap. by apply (Forall_impl _ _ _ Hsnap). }
    split; [|split]; simpl; [done| |done].
    by apply map_Forall_saveAll.
Qed.

Lemma everywhere_step ev st : everywhere P st → everywhere P (step st ev).
Proof.
  intros Hst. by apply everywhere_connectivityEffect, everywhere_handle.
Qed.

Lemma everywhere_run evs st : everywhere P st → everywhere P (run st evs).
Proof.
  revert st. induction evs as [|ev r IH]; intros st Hst; simpl; [done|].
  by apply IH, everywhere_step.
Qed.

Lemma everywhere_session onLine evs : everywhere P (session onLine evs).
Proof.
  apply everywhere_run, everywhere_mount.
  split; [constructor|]. split; [apply map_Forall_empty|constructor].
Qed.

End Everywhere.

(** ** Reconciliation *)

Lemma syncTodos_finish_begin (opens : nat → bool) (st : App) :
  pending st = [] →
  syncTodos_finish opens (syncTodos_begin st) = syncTodos opens st.
Proof.
  intros Hp. unfold syncTodos_finish, syncTodos. simpl. by rewrite Hp.
Qed.

Lemma todos_syncTodos (opens : nat → bool) (st : App) :
  todos (syncTodos opens st) = markSynced <$> todos st.
Proof. done. Qed.

Lemma db_syncTodos (opens : nat → bool) (st : App) :
  db (syncTodos opens st) = saveAll opens 0 (markSynced <$> todos st) (db st).
Proof. done. Qed.

(** C2 (as stated, refuted): after a completed pass with nothing in
    between, every item present at its start would have [synced = true]
    both in the list and in the store.  When the opens made by the pass
    fail, the store keeps the unsynced record. *)
Lemma reconciliation_store_counterexample :
  ¬ reconciled (todos offlineMilk) storeDownSync.
Proof.
  intros [_ Hstore].
  destruct (Hstore milk) as (t' & Hl & Hs).
  - vm_compute. left.
  - vm_compute in Hl. injection Hl as <-. discriminate Hs.
Qed.

(** C2 (amended): after a completed pass with nothing in between, every
    item present at its start is in the list with [synced = true], and,
    when every open of the database made by the pass succeeds, the store
    holds a record with [synced = true] under its id. *)
Theorem reconciliation_marks_all_synced (st : App) (opens : nat → bool) :
  todos (syncTodos opens st) = markSynced <$> todos st
  ∧ Forall (λ t, synced t = true) (todos (syncTodos opens st))
  ∧ ((∀ k, k < length (todos st) → opens k = true) →
     reconciled (todos st) (syncTodos opens st)).
Proof.
  split; [done|]. split.
  - rewrite todos_syncTodos. apply Forall_fmap, Forall_forall. by intros t _.
  - intros Hopen. split.
    + intros t Ht. rewrite todos_syncTodos. by apply list_elem_of_fmap_2.
    + intros t Ht. rewrite db_syncTodos.
      destruct (saveAll_stored opens 0 (markSynced <$> todos st) (db st)
                  (markSynced t)) as (t' & Ht' & _ & Hl).
      * intros j Hj. apply Hopen. rewrite length_fmap in Hj. lia.
      * by apply list_elem_of_fmap_2.
      * exists t'. split; [exact Hl|].
        apply list_elem_of_fmap in Ht' as (t0 & -> & _). done.
Qed.

Lemma reconciliation_marks_all_synced_witness :
  todos (syncTodos (λ _, true) offlineMilk) = markSynced <$> todos offlineMilk
  ∧ Forall (λ t, synced t = true) (todos (syncTodos (λ _, true) offlineMilk))
  ∧ reconciled (todos offlineMilk) (syncTodos (λ _, true) offlineMilk).
Proof.
  destruct (reconciliation_marks_all_synced offlineMilk (λ _, true))
    as (H1 & H2 & H3).
  split; [exact H1|]. split; [exact H2|]. apply H3. reflexivity.
Defined.

(** The pass works on the list it captured when it began: an item added
    during the wait is in the store but no longer in the list once the
    pass completes. *)
Example mutation_during_pass_is_overwritten :
  text <$> todos addDuringSync = [js "Buy milk"]
  ∧ ∃ t, db addDuringSync !! js "2000" = Some t ∧ text t = js "Call Bob".
Proof. split; [reflexivity|]. eexists. split; reflexivity. Qed.

(** ** Deletion *)

Lemma todos_deleteTodo (i : jsstring) (opened : bool) (st : App) (t : Todo) :
  t ∈ todos (deleteTodo i opened st) → t ∈ todos st ∧ id t ≠ i.
Proof.
  simpl. intros Ht. apply list_elem_of_In, filter_In in Ht as [Hin Hne].
  split; [by apply list_elem_of_In|].
  apply negb_true_iff in Hne. by apply strictEq_false.
Qed.

Lemma absent_step (i : jsstring) (st : App) (ev : Event) :
  sparesKeyAt i st ev → db st !! i = None → db (step st ev) !! i = None.
Proof.
  intros Hev Hdb. unfold step.
  rewrite (proj2 (proj2 (proj2 (connectivityEffect_frame _)))).
  destruct ev as [b|o| | |s|n1 n2 o|j o|j o|opens]; simpl in *; try done.
  - by rewrite db_mount.
  - by destruct o.
  - unfold addTodo. destruct (falsy _); [done|]. simpl.
    destruct o; simpl; [|done]. by rewrite lookup_insert_ne.
  - rewrite db_toggleTodo.
    destruct (List.find _ _) as [t|] eqn:Hf; [|done].
    apply find_some_id in Hf as [Hj _]. destruct o; simpl; [|done].
    rewrite lookup_insert_ne; [done|congruence].
  - destruct o; simpl; [|done].
    rewrite lookup_delete. by case_decide.
  - unfold syncTodos_finish.
    destruct (pending st) as [|snap rest]; [done|]. simpl.
    destruct (saveAll_lookup opens 0 (markSynced <$> snap) (db st) i)
      as [-> |(t & Ht & Hi & _)]; [done|].
    apply list_elem_of_fmap in Ht as (t0 & -> & Ht0).
    by destruct (Hev t0 Ht0).
Qed.

Lemma absent_run (i : jsstring) (evs : list Event) (st : App) :
  sparing i st evs → db st !! i = None → db (run st evs) !! i = None.
Proof.
  revert st. induction evs as [|ev r IH]; intros st Hsp Hdb; simpl; [done|].
  destruct Hsp as [Hev Hr]. by apply IH, absent_step.
Qed.

Lemma absent_getAll (i : jsstring) (d : gmap jsstring Todo) (t : Todo) :
  keyedById d → d !! i = None → t ∈ getAll d → id t ≠ i.
Proof.
  intros Hkey Hi [k Hk]%elem_of_getAll Heq.
  rewrite (Hkey k t Hk) in Heq. congruence.
Qed.

(** C3 (as stated, refuted): deleting a present id would remove it from
    the list and from the store, so that no later [getAll] returns it.
    When the open made by the delete fails, the record stays in the store
    and [getAll] still returns it.  When the open succeeds but a pass in
    flight captured the item, the completing pass puts the record back and
    a later load returns it. *)
Lemma delete_store_counterexample :
  (∃ t, t ∈ todos offlineMilk ∧ id t = js "1000")
  ∧ ¬ gone (js "1000") (deleteTodo (js "1000") false offlineMilk)
  ∧ ∃ t, t ∈ todos (loadTodosFromDB true deleteDuringSync)
         ∧ id t = js "1000".
Proof.
  split; [|split].
  - exists milk. split; [vm_compute; left|reflexivity].
  - intros [_ Hstore]. apply (Hstore milk); [|reflexivity].
    apply elem_of_getAll. exists (js "1000"). reflexivity.
  - exists (markSynced milk). split; [|reflexivity].
    simpl. apply elem_of_getAll. exists (js "1000"). reflexivity.
Qed.

(** C3 (amended): deleting an id removes every item with that id from the
    list, whatever the open does.  When the open of the database made by
    the delete succeeds, the record is removed from the store as well, and
    [getAll], hence a load, does not return it for as long as nothing puts
    that id again: no pass completes that captured an item with that id,
    the id is not toggled, and no add mints it. *)
Theorem delete_removes_item (st : App) (i : jsstring) :
  keyedById (db st) →
  (∀ opened t, t ∈ todos (deleteTodo i opened st) → id t ≠ i)
  ∧ gone i (deleteTodo i true st)
  ∧ (∀ evs, sparing i (deleteTodo i true st) evs →
            (∀ t, t ∈ getAll (db (run (deleteTodo i true st) evs)) →
                  id t ≠ i)
            ∧ (∀ t, t ∈ todos (loadTodosFromDB true
                                 (run (deleteTodo i true st) evs)) →
                    id t ≠ i)).
Proof.
  intros Hkey.
  assert (db (deleteTodo i true st) !! i = None) as Hnone
    by (simpl; apply lookup_delete_eq).
  assert (keyedById (db (deleteTodo i true st))) as Hkey'
    by by apply (keyedById_delete true).
  split; [|split; [split|]].
  - intros opened t Ht. by apply todos_deleteTodo in Ht as [_ ?].
  - intros t Ht. by apply todos_deleteTodo in Ht as [_ ?].
  - intros t. by apply absent_getAll.
  - intros evs Hsp.
    assert (∀ t, t ∈ getAll (db (run (deleteTodo i true st) evs)) → id t ≠ i)
      as Hstore.
    { intros t. apply absent_getAll; [by apply keyedById_run|].
      by apply absent_run. }
    split; [exact Hstore|]. intros t Ht. by apply Hstore.
Qed.

Lemma delete_removes_item_witness :
  todos (deleteTodo (js "1000") true offlineMilk) = []
  ∧ gone (js "1000") (deleteTodo (js "1000") true offlineMilk)
  ∧ ∀ t, t ∈ todos (loadTodosFromDB true
                      (run (deleteTodo (js "1000") true offlineMilk)
                         [EvOnline; EvSyncDone (λ _, true); EvMount true]))
         → id t ≠ js "1000".
Proof.
  split; [reflexivity|].
  destruct (delete_removes_item offlineMilk (js "1000")) as (_ & Hgone & Hlater).
  - apply (keyedById_session false).
  - split; [exact Hgone|].
    apply (Hlater [EvOnline; EvSyncDone (λ _, true); EvMount true]).
    simpl. split; [done|]. split; [|done].
    intros t Ht. vm_compute in Ht. by apply elem_of_nil in Ht.
Defined.

(** ** Uniqueness of ids in the store *)

(** C8: in every state of a session (any sequence of adds, toggles,
    deletes, connectivity changes, reloads and reconciliation passes), no
    two records of the store share an id. *)
Theorem store_ids_unique (onLine : bool) (evs : list Event) :
  NoDup (id <$> getAll (db (session onLine evs))).
Proof. apply getAll_NoDup_ids, keyedById_session. Qed.

(** Ids come from the clock: two adds within one millisecond give two
    items of the list the same id, and the second replaces the first in
    the store. *)
Example same_millisecond_ids :
  id <$> todos sameMillisecond = [js "1000"; js "1000"]
  ∧ text <$> getAll (db sameMillisecond) = [js "b"].
Proof. split; reflexivity. Qed.

(** ** Text of the items *)

(** C9: an accepted add stores the input without its leading and trailing
    whitespace; hence, in every state of a session, every item of the list
    has a text that is not empty and neither starts nor ends with
    whitespace. *)
Theorem item_text_is_trimmed_input :
  (∀ st n1 n2 opened,
      blank (newTodo st) = false →
      ∃ todo pre post,
        todos (addTodo n1 n2 opened st) = todos st ++ [todo]
        ∧ text todo = trim (newTodo st)
        ∧ newTodo st = pre ++ text todo ++ post
        ∧ blank pre = true ∧ blank post = true
        ∧ trimmed (text todo) = true)
  ∧ (∀ onLine evs t,
      t ∈ todos (session onLine evs) → trimmed (text t) = true).
Proof.
  split.
  - intros st n1 n2 opened Hb. rewrite addTodo_accepted by done. simpl.
    destruct (trim_split (newTodo st)) as (pre & post & Hs & Hpre & Hpost).
    eexists _, pre, post. split; [reflexivity|]. simpl.
    split; [done|]. split; [done|]. split; [done|]. split; [done|].
    by apply trim_trimmed.
  - intros onLine evs t Ht.
    destruct (everywhere_session (λ t, trimmed (text t) = true))
      with (onLine := onLine) (evs := evs) as (Hl & _ & _).
    + done.
    + done.
    + intros n1 n2 s b Hb. simpl. by apply trim_trimmed.
    + by apply (proj1 (Forall_forall _ _) Hl).
Qed.

Lemma item_text_is_trimmed_input_witness :
  (∃ todo pre post,
      todos (addTodo 2000 2001 true typingBob) = todos typingBob ++ [todo]
      ∧ text todo = trim (newTodo typingBob)
      ∧ newTodo typingBob = pre ++ text todo ++ post
      ∧ blank pre = true ∧ blank post = true
      ∧ trimmed (text todo) = true)
  ∧ trimmed (text milk) = true.
Proof.
  split.
  - apply (proj1 item_text_is_trimmed_input typingBob 2000%Z 2001%Z true).
    reflexivity.
  - apply (proj2 item_text_is_trimmed_input false
             [EvSyncDone (λ _, true); EvInput (js "  Buy milk ");
              EvAdd 1000 1001 true] milk).
    vm_compute. left.
Defined.

(** ** When the reconciler is called *)

Section Calls.

Implicit Types (st : App) (ev : Event).


Lemma isOnline_step st ev :
  isOnline (step st ev) = isOnline (handle ev st).
Proof. apply connectivityEffect_frame. Qed.



End Calls.



(** * Further properties *)

(** ** Keyboard *)

(** A key press in the text field changes the state exactly when the key
    is Enter and the field holds more than whitespace. *)
Theorem handleKeyPress_changes_iff
    (key : jsstring) (n1 n2 : Z) (opened : bool) (st : App) :
  handleKeyPress key n1 n2 opened st ≠ st
  ↔ key = js "Enter" ∧ blank (newTodo st) = false.
Proof.
  unfold handleKeyPress. destruct (strictEq key (js "Enter")) eqn:Hk.
  - apply strictEq_true in Hk. destruct (blank (newTodo st)) eqn:Hb.
    + rewrite addTodo_blank by done. split; [done|by intros [_ ?]].
    + split; [done|]. intros _ Heq.
      apply (f_equal (λ s, length (todos s))) in Heq.
      rewrite addTodo_accepted in Heq by done. simpl in Heq.
      rewrite length_app in Heq. simpl in Heq. lia.
  - apply strictEq_false in Hk. split; [done|by intros [? _]].
Qed.

(** ** Rendering of the list *)

Lemma length_filter_split {A} (p : A → bool) (l : list A) :
  length (List.filter (λ x, negb (p x)) l) + length (List.filter p l)
  = length l.
Proof.
  induction l as [|a r IH]; simpl; [done|].
  destruct (p a); simpl; lia.
Qed.

Lemma pending_rows (l : list Todo) :
  length (List.filter rowPending (renderRow <$> l))
  = length (List.filter (λ t, negb (synced t)) l).
Proof.
  induction l as [|a l IH]; [reflexivity|].
  rewrite fmap_cons. simpl. destruct (synced a); simpl; by rewrite IH.
Qed.

(** The footer's two counts add up to the number of rows; the footer is
    drawn exactly when the empty-list message is not; there is one row per
    item, and the rows with a Pending badge are as many as the pending
    count. *)
Theorem rendering_is_consistent (st : App) :
  activeCount st + completedCount st = length (todos st)
  ∧ length (rows st) = length (todos st)
  ∧ (is_Some (footer st) ↔ emptyMessage st = false)
  ∧ (emptyMessage st = true ↔ rows st = [])
  ∧ length (List.filter rowPending (rows st)) = unsyncedCount st.
Proof.
  split; [apply length_filter_split|].
  unfold rows, footer, emptyMessage, unsyncedCount.
  destruct (todos st) as [|t r] eqn:Hl; simpl.
  - split; [done|]. split; [split; [by intros [? ?]|done]|]. done.
  - rewrite length_fmap. split; [done|].
    split; [split; [done|by eexists]|]. split; [done|].
    apply (pending_rows (t :: r)).
Qed.

(** When a pass completes, no item is pending any more: the pending count
    is zero, the banner is not drawn and no row carries the badge. *)
Theorem completed_pass_clears_pending (st : App) (opens : nat → bool) :
  unsyncedCount (syncTodos opens st) = 0
  ∧ pendingBanner (syncTodos opens st) = None
  ∧ Forall (λ r, rowPending r = false) (rows (syncTodos opens st)).
Proof.
  assert (unsyncedCount (syncTodos opens st) = 0) as Hc.
  { unfold unsyncedCount. rewrite todos_syncTodos.
    induction (todos st) as [|t r IH]; simpl; [done|exact IH]. }
  split; [done|]. split.
  - unfold pendingBanner. by rewrite Hc.
  - unfold rows. destruct (emptyMessage _); [constructor|].
    rewrite todos_syncTodos. apply Forall_fmap, Forall_fmap, Forall_forall.
    by intros t _.
Qed.

(** An accepted add raises the pending count by one when offline and
    leaves it alone when online; offline, the banner is drawn with the new
    count. *)
Theorem add_and_pending_count
    (st : App) (n1 n2 : Z) (opened : bool) :
  blank (newTodo st) = false →
  unsyncedCount (addTodo n1 n2 opened st)
  = unsyncedCount st + (if isOnline st then 0 else 1)
  ∧ (isOnline st = false →
     ∃ noun, pendingBanner (addTodo n1 n2 opened st)
             = Some (S (unsyncedCount st), noun)).
Proof.
  intros Hb.
  assert (unsyncedCount (addTodo n1 n2 opened st)
          = unsyncedCount st + (if isOnline st then 0 else 1)) as Hc.
  { unfold unsyncedCount. rewrite addTodo_accepted by done. simpl.
    rewrite List.filter_app, length_app. simpl.
    by destruct (isOnline st). }
  split; [done|]. intros Hoff. unfold pendingBanner.
  rewrite Hc, Hoff.
  assert (isOnline (addTodo n1 n2 opened st) = false) as ->
    by (by rewrite addTodo_accepted).
  replace (unsyncedCount st + 1) with (S (unsyncedCount st)) by lia.
  simpl. by eexists.
Qed.

Lemma add_and_pending_count_witness :
  unsyncedCount (addTodo 2000 2001 true typingBob)
  = unsyncedCount typingBob + (if isOnline typingBob then 0 else 1)
  ∧ ∃ noun, pendingBanner (addTodo 2000 2001 true typingBob)
            = Some (S (unsyncedCount typingBob), noun).
Proof.
  destruct (add_and_pending_count typingBob 2000 2001 true) as [H1 H2];
    [reflexivity|].
  split; [exact H1|]. apply H2. reflexivity.
Defined.

(** ** What toggle and delete leave alone *)

Lemma filter_all (l : list Todo) (p : Todo → bool) :
  (∀ t, t ∈ l → p t = true) → List.filter p l = l.
Proof.
  induction l as [|a r IH]; intros Hall; simpl; [done|].
  rewrite (Hall a) by left. f_equal. apply IH. intros t Ht. apply Hall.
  by right.
Qed.

Lemma filter_filter_same (l : list Todo) (p : Todo → bool) :
  List.filter p (List.filter p l) = List.filter p l.
Proof.
  apply filter_all. intros t Ht.
  by apply list_elem_of_In, filter_In in Ht as [_ ?].
Qed.

(** Toggle changes only [completed] and [synced], and only on the items
    with the given id: the list keeps its length and every item its id,
    text and creation time; items with another id and records under
    another key are untouched, as are the field and the flag. *)
Theorem toggle_frame (st : App) (i : jsstring) (opened : bool) :
  length (todos (toggleTodo i opened st)) = length (todos st)
  ∧ id <$> todos (toggleTodo i opened st) = id <$> todos st
  ∧ text <$> todos (toggleTodo i opened st) = text <$> todos st
  ∧ createdAt <$> todos (toggleTodo i opened st) = createdAt <$> todos st
  ∧ (∀ k t, todos st !! k = Some t → id t ≠ i →
            todos (toggleTodo i opened st) !! k = Some t)
  ∧ (∀ k, k ≠ i → db (toggleTodo i opened st) !! k = db st !! k)
  ∧ newTodo (toggleTodo i opened st) = newTodo st
  ∧ isOnline (toggleTodo i opened st) = isOnline st.
Proof.
  rewrite todos_toggleTodo, length_fmap, <- !list_fmap_compose.
  split; [done|].
  split; [apply list_fmap_ext; intros _ t _; apply id_toggleAt|].
  split; [apply list_fmap_ext; intros _ t _; simpl; unfold toggleAt;
          by destruct (strictEq _ _)|].
  split; [apply list_fmap_ext; intros _ t _; simpl; unfold toggleAt;
          by destruct (strictEq _ _)|].
  split.
  { intros k t Hk Hi. rewrite list_lookup_fmap, Hk. simpl.
    by rewrite toggleAt_miss. }
  split.
  { intros k Hk. rewrite db_toggleTodo.
    destruct (List.find _ _) as [t|] eqn:Hf; [|done].
    apply find_some_id in Hf as [Hi _]. destruct opened; simpl; [|done].
    rewrite lookup_insert_ne; [done|congruence]. }
  unfold toggleTodo. by destruct (List.find _ _).
Qed.

Lemma toggle_frame_witness :
  todos (toggleTodo (js "999") true offlineMilk) !! 0 = Some milk
  ∧ db (toggleTodo (js "999") true offlineMilk) !! js "1000"
    = db offlineMilk !! js "1000".
Proof.
  destruct (toggle_frame offlineMilk (js "999") true)
    as (_ & _ & _ & _ & Hk & Hd & _).
  split.
  - apply Hk; [reflexivity|]. vm_compute. discriminate.
  - apply Hd. vm_compute. discriminate.
Defined.

(** Deleting an id that no item of the list carries and that has no
    record in the store changes nothing, whether the open succeeds or
    not. *)
Theorem delete_unknown_id_noop (st : App) (i : jsstring) (opened : bool) :
  (∀ t, t ∈ todos st → id t ≠ i) → db st !! i = None →
  deleteTodo i opened st = st.
Proof.
  intros Hno Hdb. unfold deleteTodo.
  rewrite filter_all.
  - assert (deleteTodoDB opened i (db st) = db st) as ->.
    { destruct opened; simpl; [by apply delete_id|done]. }
    by destruct st.
  - intros t Ht. apply negb_true_iff, strictEq_false. by apply Hno.
Qed.

Lemma delete_unknown_id_noop_witness :
  deleteTodo (js "999") true offlineMilk = offlineMilk.
Proof.
  apply (delete_unknown_id_noop offlineMilk (js "999") true).
  - intros t Ht. vm_compute in Ht.
    apply list_elem_of_singleton in Ht. subst t. vm_compute. discriminate.
  - reflexivity.
Defined.

(** Deleting the same id a second time changes nothing more in the list,
    and nothing more at all when the first delete reached the store. *)
Theorem delete_twice (st : App) (i : jsstring) (o1 o2 : bool) :
  todos (deleteTodo i o2 (deleteTodo i o1 st)) = todos (deleteTodo i o1 st)
  ∧ deleteTodo i o2 (deleteTodo i true st) = deleteTodo i true st.
Proof.
  split; [apply filter_filter_same|].
  unfold deleteTodo. simpl. rewrite filter_filter_same.
  destruct o2; simpl; [|done]. by rewrite delete_delete_eq.
Qed.

(** An accepted add followed by the delete of the new id, when that id
    was not in use and the delete reaches the store if the add did, gives
    back the list and the store as they were; only the text field stays
    cleared. *)
Theorem add_then_delete_roundtrip
    (st : App) (n1 n2 : Z) (o1 o2 : bool) :
  blank (newTodo st) = false →
  (∀ t, t ∈ todos st → id t ≠ toString n1) →
  db st !! toString n1 = None →
  (o1 = true → o2 = true) →
  deleteTodo (toString n1) o2 (addTodo n1 n2 o1 st) = setNewTodo [] st.
Proof.
  intros Hb Hfresh Hdb Ho. rewrite addTodo_accepted by done.
  unfold deleteTodo, setNewTodo, setTodos, withDB. simpl.
  rewrite List.filter_app. simpl.
  rewrite (proj2 (strictEq_true (toString n1) (toString n1)) eq_refl). simpl.
  rewrite app_nil_r, filter_all.
  - f_equal. destruct o1; simpl.
    + rewrite Ho by done. simpl. rewrite delete_insert_eq. by apply delete_id.
    + destruct o2; simpl; [by apply delete_id|done].
  - intros t Ht. apply negb_true_iff, strictEq_false. by apply Hfresh.
Qed.

Lemma add_then_delete_roundtrip_witness :
  deleteTodo (toString 2000) true (addTodo 2000 2001 true typingBob)
  = setNewTodo [] typingBob.
Proof.
  apply (add_then_delete_roundtrip typingBob 2000 2001 true true).
  - reflexivity.
  - intros t Ht. vm_compute in Ht.
    apply list_elem_of_singleton in Ht. subst t. vm_compute. discriminate.
  - reflexivity.
  - reflexivity.
Defined.

(** ** Ids and the clock *)

Lemma js_inj (a b : string) : js a = js b → a = b.
Proof.
  unfold js. intros H.
  rewrite <- (string_of_list_ascii_of_string a),
          <- (string_of_list_ascii_of_string b).
  f_equal. revert H.
  generalize (list_ascii_of_string a) (list_ascii_of_string b).
  induction l as [|x l IH]; intros [|y l']; simpl; try done.
  intros [= Hxy Hl]. f_equal; [|by apply IH].
  by rewrite <- (ascii_N_embedding x), <- (ascii_N_embedding y), Hxy.
Qed.

Lemma toString_inj (n m : Z) : toString n = toString m → n = m.
Proof. intros H. apply js_inj in H. by apply (inj pretty). Qed.

(** Different clock readings give different ids: adds made at different
    milliseconds never share an id. *)
Theorem minted_ids_differ (n m : Z) : n ≠ m → toString n ≠ toString m.
Proof. intros Hnm H. apply Hnm. by apply toString_inj. Qed.

Lemma minted_ids_differ_witness : toString 1000 ≠ toString 1001.
Proof. apply (minted_ids_differ 1000 1001). discriminate. Defined.

(** ** A second pass *)

(** Under successful opens the loop leaves, under each key, the last
    record with that id it was given, and the old record otherwise. *)
Lemma saveAll_snoc (opens : nat → bool) (k : nat) (l : list Todo) (a : Todo)
    (d : gmap jsstring Todo) :
  saveAll opens k (l ++ [a]) d
  = saveTodoDB (opens (k + length l)) a (saveAll opens k l d).
Proof.
  revert k d. induction l as [|b r IH]; intros k d; simpl.
  - by rewrite Nat.add_0_r.
  - rewrite IH. do 2 f_equal. lia.
Qed.

Lemma saveAll_again (k1 k2 : nat) (l : list Todo) (d : gmap jsstring Todo) :
  saveAll (λ _, true) k2 l (saveAll (λ _, true) k1 l d)
  = saveAll (λ _, true) k1 l d.
Proof.
  apply map_eq. intros i.
  assert (∀ k (e : gmap jsstring Todo),
            saveAll (λ _, true) k l e !! i
            = match last (List.filter (λ t, strictEq (id t) i) l) with
              | Some t => Some t
              | None => e !! i
              end) as Hlook.
  { clear. intros k e. induction l as [|a r IH] using rev_ind; [done|].
    rewrite saveAll_snoc, List.filter_app. simpl.
    rewrite lookup_insert. destruct (strictEq (id a) i) eqn:Ha.
    - apply strictEq_true in Ha. rewrite decide_True by done.
      by rewrite last_snoc.
    - apply strictEq_false in Ha. rewrite decide_False by done.
      by rewrite app_nil_r. }
  rewrite !Hlook. by destruct (last _).
Qed.

(** A second pass right after a completed one leaves the list as the
    first pass left it, and so the store when the opens of both passes
    succeed; a pass changes no id, text, completion or creation time. *)
Theorem second_pass_changes_nothing (st : App) (o1 o2 : nat → bool) :
  todos (syncTodos o2 (syncTodos o1 st)) = todos (syncTodos o1 st)
  ∧ db (syncTodos (λ _, true) (syncTodos (λ _, true) st))
    = db (syncTodos (λ _, true) st)
  ∧ (λ t, (id t, text t, completed t, createdAt t)) <$> todos (syncTodos o1 st)
    = (λ t, (id t, text t, completed t, createdAt t)) <$> todos st.
Proof.
  rewrite !todos_syncTodos, !db_syncTodos, !todos_syncTodos.
  rewrite <- !list_fmap_compose. split; [|split].
  - by apply list_fmap_ext.
  - replace (markSynced ∘ markSynced <$> todos st)
      with (markSynced <$> todos st) by by apply list_fmap_ext.
    apply saveAll_again.
  - by apply list_fmap_ext.
Qed.

(** ** A pass and what happens during its wait *)

Section Passes.

Implicit Types (st : App) (ev : Event) (evs : list Event).

Lemma pending_handle ev st :
  keepsPasses ev = true → pending (handle ev st) = pending st.
Proof.
  destruct ev as [b|o| | |s|n1 n2 o|i o|i o|opens]; simpl; try done.
  - by destruct o.
  - unfold addTodo. by destruct (falsy _).
  - unfold toggleTodo. by destruct (List.find _ _).
Qed.

Lemma pending_head_step ev st snap rest :
  keepsPasses ev = true → pending st = snap :: rest →
  ∃ rest', pending (step st ev) = snap :: rest'.
Proof.
  intros Hk Hp. unfold step.
  destruct (pending_connectivityEffect (handle ev st)) as [-> | ->];
    rewrite pending_handle, Hp by done; simpl; by eexists.
Qed.

Lemma pending_head_run evs st snap rest :
  forallb keepsPasses evs = true → pending st = snap :: rest →
  ∃ rest', pending (run st evs) = snap :: rest'.
Proof.
  revert st rest. induction evs as [|ev r IH]; intros st rest Hk Hp; simpl.
  - by eexists.
  - simpl in Hk. apply andb_true_iff in Hk as [Hev Hr].
    destruct (pending_head_step ev st snap rest Hev Hp) as [rest' Hp'].
    by apply (IH _ rest').
Qed.

Lemma run_snoc st evs ev : run st (evs ++ [ev]) = step (run st evs) ev.
Proof. unfold run. by rewrite foldl_app. Qed.

(** The oldest pass in flight completes after [evs]: list and store. *)
Lemma oldest_pass_completes evs st snap rest opens :
  forallb keepsPasses evs = true → pending st = snap :: rest →
  todos (run st (evs ++ [EvSyncDone opens])) = markSynced <$> snap
  ∧ db (run st (evs ++ [EvSyncDone opens]))
    = saveAll opens 0 (markSynced <$> snap) (db (run st evs)).
Proof.
  intros Hk Hp. rewrite run_snoc.
  destruct (pending_head_run evs st snap rest Hk Hp) as [rest' Hp'].
  unfold step.
  destruct (connectivityEffect_frame
              (handle (EvSyncDone opens) (run st evs))) as (-> & _ & _ & ->).
  simpl. unfold syncTodos_finish. by rewrite Hp'.
Qed.

End Passes.





(** The pass started by a page load captured the empty list of the first
    render.  When it completes, the list becomes empty, whatever was
    loaded from the store or added in the meantime, and the store is left
    as it was. *)
Theorem page_load_pass_empties_list
    (st : App) (onLine : bool) (evs : list Event) (opens : nat → bool) :
  forallb keepsPasses evs = true →
  todos (run (mount onLine st) (evs ++ [EvSyncDone opens])) = []
  ∧ db (run (mount onLine st) (evs ++ [EvSyncDone opens]))
    = db (run (mount onLine st) evs).
Proof.
  intros Hk.
  destruct (oldest_pass_completes evs (mount onLine st) [] [] opens Hk)
    as [Hl Hd]; [by rewrite mount_eq|].
  by rewrite Hl, Hd.
Qed.

Lemma page_load_pass_empties_list_witness :
  todos (run (mount true offlineMilk)
           ([EvLoaded true] ++ [EvSyncDone (λ _, true)])) = []
  ∧ db (run (mount true offlineMilk)
          ([EvLoaded true] ++ [EvSyncDone (λ _, true)]))
    = db (run (mount true offlineMilk) [EvLoaded true]).
Proof.
  apply (page_load_pass_empties_list offlineMilk true [EvLoaded true]
           (λ _, true)).
  reflexivity.
Defined.

(** ** The connectivity flag *)

(** The flag always shows the platform's last report: no handler other
    than the page load and the two connectivity listeners changes it. *)
Theorem flag_is_last_report (st : App) (evs : list Event) :
  isOnline (run st evs) = lastReport (isOnline st) evs.
Proof.
  revert st. induction evs as [|ev r IH]; intros st; simpl; [done|].
  rewrite IH, isOnline_step.
  pose proof (handle_frame ev st) as Hh.
  destruct ev as [b|o| | |s|n1 n2 o|i o|i o|opens];
    try (by destruct Hh as (-> & _ & _)); simpl; try done.
  by rewrite mount_eq.
Qed.

(** ** Where ids come from *)

Section Minting.

Implicit Types (st : App) (ev : Event) (evs : list Event) (U : list Z).

Lemma everywhere_mono (P Q : Todo → Prop) st :
  (∀ t, P t → Q t) → everywhere P st → everywhere Q st.
Proof.
  intros HPQ (Hl & Hd & Hp). split; [|split].
  - by apply (Forall_impl _ _ _ Hl).
  - intros k t Hk. by apply HPQ, (Hd k).
  - apply (Forall_impl _ _ _ Hp). intros s Hs.
    by apply (Forall_impl _ _ _ Hs).
Qed.

(** As [everywhere_step], for a property that only the items made by this
    very event have to satisfy when new. *)
Lemma everywhere_step_event (P : Todo → Prop) ev st :
  (∀ t, P t → P (markSynced t)) →
  (∀ b t, P t → P (toggled b t)) →
  (∀ n1 n2 o s b, ev = EvAdd n1 n2 o → blank s = false →
                  P (mkTodo (toString n1) (trim s) false n2 b)) →
  everywhere P st → everywhere P (step st ev).
Proof.
  intros Hsync Htog Hnew Hst.
  apply everywhere_connectivityEffect.
  pose proof Hst as (Hl & Hd & Hp).
  destruct ev as [b|o| | |s|n1 n2 o|i o|i o|opens]; simpl; try done.
  - by apply everywhere_mount.
  - destruct o; [|done]. split; [|done]. by apply Forall_getAll.
  - unfold addTodo. rewrite falsy_trim.
    destruct (blank (newTodo st)) eqn:Hb; [done|].
    split; [|split]; simpl; [| |done].
    + apply Forall_app. split; [done|]. apply Forall_singleton.
      by apply (Hnew n1 n2 o).
    + apply map_Forall_save; [by apply (Hnew n1 n2 o)|done].
  - assert (∀ t, P t → P (toggleAt i (isOnline st) t)) as Ht.
    { intros t Pt. unfold toggleAt. destruct (strictEq _ _); [|done].
      by apply Htog. }
    split; [|split].
    + rewrite todos_toggleTodo. by apply Forall_fmap, (Forall_impl _ _ _ Hl).
    + rewrite db_toggleTodo.
      destruct (List.find _ _) as [t|] eqn:Hf; [|done].
      apply map_Forall_save; [|done]. apply Htog.
      apply find_some_id in Hf as [_ Hin].
      by apply (proj1 (Forall_forall _ _) Hl).
    + unfold toggleTodo. by destruct (List.find _ _).
  - split; [|split]; simpl; [| |done].
    + apply Forall_forall. intros t Ht.
      apply list_elem_of_In, filter_In in Ht as [Ht _].
      apply list_elem_of_In in Ht.
      by apply (proj1 (Forall_forall _ _) Hl).
    + by apply map_Forall_deleteDB.
  - unfold syncTodos_finish.
    destruct (pending st) as [|snap rest] eqn:Hpend; [done|].
    inversion Hp as [|? ? Hsnap Hrest]; subst.
    assert (Forall P (markSynced <$> snap)) as Hsynced.
    { apply Forall_fmap. by apply (Forall_impl _ _ _ Hsnap). }
    split; [|split]; simpl; [done| |done].
    by apply map_Forall_saveAll.
Qed.

Lemma clockReads_cons ev evs :
  clockReads (ev :: evs) = clockReads [ev] ++ clockReads evs.
Proof. by destruct ev. Qed.

Lemma idIn_step U ev st :
  everywhere (idIn U) st →
  everywhere (idIn (U ++ clockReads [ev])) (step st ev).
Proof.
  intros Hst. apply everywhere_step_event; try done.
  - intros n1 n2 o s b -> _. unfold idIn. simpl.
    apply list_elem_of_fmap_2, elem_of_app. right. left.
  - apply (everywhere_mono (idIn U)); [|done].
    intros t Ht. unfold idIn in *. rewrite fmap_app, elem_of_app. by left.
Qed.

Lemma idIn_run evs U st :
  everywhere (idIn U) st →
  everywhere (idIn (U ++ clockReads evs)) (run st evs).
Proof.
  revert U st. induction evs as [|ev r IH]; intros U st Hst.
  - simpl. by rewrite app_nil_r.
  - rewrite clockReads_cons, app_assoc. simpl.
    by apply IH, idIn_step.
Qed.

Lemma idIn_mount onLine : everywhere (idIn []) (mount onLine fresh).
Proof.
  rewrite mount_eq. split; [constructor|].
  split; [apply map_Forall_empty|]. simpl. by repeat constructor.
Qed.

End Minting.

(** In every state of a session, the id of every item of the list and of
    every record of the store is the decimal numeral of a clock reading
    taken by one of the adds so far. *)
Theorem ids_are_clock_readings (onLine : bool) (evs : list Event) (t : Todo) :
  t ∈ todos (session onLine evs) ∨ t ∈ getAll (db (session onLine evs)) →
  ∃ n, n ∈ clockReads evs ∧ id t = toString n.
Proof.
  destruct (idIn_run evs [] (mount onLine fresh) (idIn_mount onLine))
    as (Hl & Hd & _).
  assert (idIn (clockReads evs) t → ∃ n, n ∈ clockReads evs ∧ id t = toString n)
    as Hn.
  { unfold idIn. intros (n & ? & ?)%list_elem_of_fmap. by exists n. }
  intros [Ht|Ht]; apply Hn.
  - by apply (proj1 (Forall_forall _ _) Hl).
  - apply elem_of_getAll in Ht as [k Hk]. by apply (Hd k).
Qed.

Lemma ids_are_clock_readings_witness :
  ∃ n, n ∈ clockReads milkEvents ∧ id milk = toString n.
Proof.
  apply (ids_are_clock_readings false milkEvents milk).
  left. vm_compute. left.
Defined.

(** ** Ids of the list *)

Section Distinct.

Implicit Types (st : App) (ev : Event) (evs : list Event) (U : list Z).

Lemma NoDup_ids_filter (p : Todo → bool) (l : list Todo) :
  NoDup (id <$> l) → NoDup (id <$> List.filter p l).
Proof.
  induction l as [|a r IH]; [done|].
  rewrite fmap_cons, NoDup_cons. intros [Ha Hr]. simpl.
  destruct (p a); [|by apply IH].
  rewrite fmap_cons, NoDup_cons. split; [|by apply IH].
  intros (t & Hi & Ht)%list_elem_of_fmap. apply Ha.
  apply list_elem_of_fmap. exists t. split; [done|].
  by apply list_elem_of_In, filter_In in Ht as [?%list_elem_of_In _].
Qed.

Lemma NoDup_ids_eq (l : list Todo) (a b : Todo) :
  NoDup (id <$> l) → a ∈ l → b ∈ l → id a = id b → a = b.
Proof.
  intros Hnd [i Hi]%list_elem_of_lookup [j Hj]%list_elem_of_lookup Hab.
  assert (i = j) as ->.
  { apply (NoDup_lookup _ i j (id a) Hnd).
    - by rewrite list_lookup_fmap, Hi.
    - by rewrite list_lookup_fmap, Hj, Hab. }
  congruence.
Qed.

Lemma ids_toggleAt i online (l : list Todo) :
  id <$> (toggleAt i online <$> l) = id <$> l.
Proof.
  rewrite <- list_fmap_compose. apply list_fmap_ext.
  intros _ t _. apply id_toggleAt.
Qed.

Lemma ids_markSynced (l : list Todo) : id <$> (markSynced <$> l) = id <$> l.
Proof. rewrite <- list_fmap_compose. by apply list_fmap_ext. Qed.

Lemma distinct_connectivityEffect st :
  distinct st → distinct (connectivityEffect st).
Proof.
  intros [Hl Hp]. unfold distinct.
  destruct (connectivityEffect_frame st) as (-> & _ & _ & _).
  split; [done|].
  destruct (pending_connectivityEffect st) as [-> | ->]; [done|].
  apply Forall_app. split; [done|]. by apply Forall_singleton.
Qed.

(** One event keeps ids distinct, provided an add does not mint an id the
    list already has. *)
Lemma distinct_step ev st :
  keyedById (db st) →
  (∀ n1 n2 o, ev = EvAdd n1 n2 o →
              ∀ t, t ∈ todos st → id t ≠ toString n1) →
  distinct st → distinct (step st ev).
Proof.
  intros Hkey Hfresh [Hl Hp]. apply distinct_connectivityEffect.
  destruct ev as [b|o| | |s|n1 n2 o|i o|i o|opens]; simpl; try done.
  - rewrite mount_eq. split; simpl; [constructor|]. repeat constructor.
  - destruct o; [|done]. split; [|done]. simpl. by apply getAll_NoDup_ids.
  - unfold addTodo. destruct (falsy _); [done|].
    split; [|done]. simpl. rewrite fmap_app. apply NoDup_app.
    split; [done|]. split; [|apply NoDup_singleton].
    intros x (t & -> & Ht)%list_elem_of_fmap Hx.
    apply list_elem_of_singleton in Hx.
    by apply (Hfresh n1 n2 o eq_refl t).
  - split.
    + by rewrite todos_toggleTodo, ids_toggleAt.
    + unfold toggleTodo. by destruct (List.find _ _).
  - split; [|done]. simpl. by apply NoDup_ids_filter.
  - unfold syncTodos_finish.
    destruct (pending st) as [|snap rest] eqn:Hpend;
      [split; [done|rewrite Hpend; constructor]|].
    inversion Hp as [|? ? Hsnap Hrest]; subst.
    split; [|done]. simpl. by rewrite ids_markSynced.
Qed.

Lemma distinct_run evs U st :
  keyedById (db st) → everywhere (idIn U) st → distinct st →
  NoDup (U ++ clockReads evs) →
  distinct (run st evs).
Proof.
  revert U st. induction evs as [|ev r IH]; intros U st Hkey Hin Hd Hnd;
    simpl; [done|].
  rewrite clockReads_cons, app_assoc in Hnd.
  apply (IH (U ++ clockReads [ev])); [| | |done].
  - by apply keyedById_step.
  - by apply idIn_step.
  - apply distinct_step; [done| |done].
    intros n1 n2 o -> t Ht Heq.
    destruct Hin as (Hl & _ & _).
    apply (proj1 (Forall_forall _ _) Hl) in Ht. unfold idIn in Ht.
    rewrite Heq in Ht. apply list_elem_of_fmap in Ht as (m & Hm & HmU).
    apply NoDup_app in Hnd as [Hnd _]. simpl in Hnd.
    apply NoDup_app in Hnd as (_ & Hdisj & _).
    apply (Hdisj m HmU).
    rewrite <- (toString_inj n1 m Hm). left.
Qed.

Lemma distinct_session onLine evs :
  NoDup (clockReads evs) → distinct (session onLine evs).
Proof.
  intros Hnd. apply (distinct_run evs []); [| | |done].
  - rewrite db_mount. apply keyedById_empty.
  - apply idIn_mount.
  - rewrite mount_eq. split; simpl; [constructor|]. repeat constructor.
Qed.

End Distinct.

(** When the adds of a session read pairwise different clock values, no
    two items of the list share an id; an item of the list is then
    determined by its id. *)
Theorem list_ids_unique_for_distinct_clocks
    (onLine : bool) (evs : list Event) :
  NoDup (clockReads evs) →
  NoDup (id <$> todos (session onLine evs))
  ∧ (∀ a b, a ∈ todos (session onLine evs) → b ∈ todos (session onLine evs) →
            id a = id b → a = b).
Proof.
  intros Hnd. destruct (distinct_session onLine evs Hnd) as [Hl _].
  split; [done|]. intros a b. by apply NoDup_ids_eq.
Qed.

Lemma list_ids_unique_for_distinct_clocks_witness :
  NoDup (id <$> todos offlineMilk).
Proof.
  apply (list_ids_unique_for_distinct_clocks false milkEvents).
  vm_compute. apply NoDup_singleton.
Defined.
